(** * PlanIt multi-agent planner: a shallow embedding of planit_simulation.py

    The development follows the source file top to bottom: the Python values
    the candidate dictionaries hold and the operators applied to them, the
    heap of dictionaries the agents mutate in place, the six agents, the
    decision fusion scan and the simulation driver.

    Numbers.  A Python [int] is an integer of [Z].  A Python [float] is
    modelled as an exact rational of [Q]: rounding, infinities and NaN of the
    binary64 format are not modelled.  Rationals are compared with [Qcompare],
    so that two representations of one number behave alike.  The scores of
    the sample data are computed a second time on binary64 floats
    ([Binary64]), where they compare as the rationals do.

    Objects.  A route is a Python [dict] that CostAgent, TimeAgent and
    ResourceAgent update in place, and a list of routes is a list of
    references to such dictionaries.  The references are locations of a heap,
    so that a list may hold one dictionary twice.  The dictionaries that are
    only read ([user_input], [weights]) are plain finite maps.

    Agents.  The name an agent is built with is only printed, so an agent
    has no state of its own and each class is a module holding its
    [process].

    Console output ([print]) is not modelled, except that [run_planit]
    returns what its last [print] shows. *)

From Stdlib Require Import ZArith QArith Lqa PrimFloat.
From stdpp Require Import base option list strings gmap fin_maps.

Local Open Scope string_scope.

(** ** Python values and exceptions *)

Inductive value : Type :=
  | VInt (z : Z)
  | VFloat (q : Q)
  | VBool (b : bool)
  | VStr (s : string).

(** The exceptions of the source, and [ValidationError], the error kind the
    specification asks for; no statement of the source raises it. *)
Inductive exn : Type :=
  | KeyError (k : string)
  | TypeError
  | ZeroDivisionError
  | NotImplementedError
  | ValidationError.

Inductive outcome (A : Type) : Type :=
  | Return (a : A)
  | Raise (e : exn).
Arguments Return {A} a.
Arguments Raise {A} e.

Global Instance outcome_ret : MRet outcome := λ A a, Return a.
Global Instance outcome_bind : MBind outcome := λ A B f o,
  match o with
  | Return a => f a
  | Raise e => Raise e
  end.

Abbreviation dict := (gmap string value).

(** [d[k]] on a dictionary that is only read. *)
Definition subscript (d : dict) (k : string) : outcome value :=
  match d !! k with
  | Some v => Return v
  | None => Raise (KeyError k)
  end.

(** ** Python operators on these values *)

Module Py.

(** [bool] is a subclass of [int]: [True] is 1 and [False] is 0. *)
Definition as_int (v : value) : option Z :=
  match v with
  | VInt z => Some z
  | VBool b => Some (if b then 1%Z else 0%Z)
  | _ => None
  end.

(** The number a numeric value denotes. *)
Definition as_num (v : value) : option Q :=
  match v with
  | VInt z => Some (inject_Z z)
  | VFloat q => Some q
  | VBool b => Some (inject_Z (if b then 1 else 0))
  | VStr _ => None
  end.

Fixpoint str_repeat (s : string) (n : nat) : string :=
  match n with
  | O => ""
  | S n' => s ++ str_repeat s n'
  end.

(** [v * w]: integer product, float product as soon as one side is a
    float, repetition of a string by an integer. *)
Definition mul (v w : value) : outcome value :=
  match as_int v, as_int w with
  | Some a, Some b => Return (VInt (a * b)%Z)
  | _, _ =>
    match as_num v, as_num w with
    | Some a, Some b => Return (VFloat (a * b)%Q)
    | _, _ =>
      match v, as_int w with
      | VStr s, Some n => Return (VStr (str_repeat s (Z.to_nat n)))
      | _, _ =>
        match as_int v, w with
        | Some n, VStr s => Return (VStr (str_repeat s (Z.to_nat n)))
        | _, _ => Raise TypeError
        end
      end
    end
  end.

(** [v + w]: integer sum, float sum, concatenation of two strings. *)
Definition add (v w : value) : outcome value :=
  match as_int v, as_int w with
  | Some a, Some b => Return (VInt (a + b)%Z)
  | _, _ =>
    match as_num v, as_num w with
    | Some a, Some b => Return (VFloat (a + b)%Q)
    | _, _ =>
      match v, w with
      | VStr s, VStr t => Return (VStr (s ++ t))
      | _, _ => Raise TypeError
      end
    end
  end.

(** [v / w], true division: always a float, and [ZeroDivisionError] on a
    zero divisor. *)
Definition truediv (v w : value) : outcome value :=
  match as_num v, as_num w with
  | Some a, Some b =>
    match Qcompare b 0 with
    | Eq => Raise ZeroDivisionError
    | _ => Return (VFloat (a / b)%Q)
    end
  | _, _ => Raise TypeError
  end.

(** [v > w]: numbers by value, strings in lexicographic order. *)
Definition gt (v w : value) : outcome bool :=
  match as_num v, as_num w with
  | Some a, Some b =>
    Return (match Qcompare a b with Gt => true | _ => false end)
  | _, _ =>
    match v, w with
    | VStr s, VStr t =>
      Return (match String.compare s t with Gt => true | _ => false end)
    | _, _ => Raise TypeError
    end
  end.

(** [v == w] against a string literal. *)
Definition eq_str (v : value) (s : string) : bool :=
  match v with
  | VStr t => bool_decide (t = s)
  | _ => false
  end.

End Py.

(** ** The heap of dictionaries

    A reference that the heap does not bind denotes the empty dictionary, so
    that every reference can be read and written. *)

Abbreviation loc := positive.
Abbreviation heap := (gmap positive (gmap string value)).

Definition deref (σ : heap) (r : loc) : dict := default ∅ (σ !! r).

(** A computation reads and updates the heap and returns or raises; the heap
    a raising computation leaves behind is kept, as Python keeps it. *)
Definition M (A : Type) : Type := heap → outcome A * heap.

Global Instance M_ret : MRet M := λ A a σ, (Return a, σ).
Global Instance M_bind : MBind M := λ A B f m σ,
  match m σ with
  | (Return a, σ') => f a σ'
  | (Raise e, σ') => (Raise e, σ')
  end.

Definition lift {A} (o : outcome A) : M A := λ σ, (o, σ).

(** [r[k]] *)
Definition getitem (r : loc) (k : string) : M value :=
  λ σ, (subscript (deref σ r) k, σ).

(** [r[k] = v] *)
Definition setitem (r : loc) (k : string) (v : value) : M () :=
  λ σ, (Return (), <[r := <[k := v]> (deref σ r)]> σ).

(** A dictionary display [{...}] builds a new object. *)
Definition new_dict (d : dict) : M loc :=
  λ σ, let r := fresh (dom σ) in (Return r, <[r := d]> σ).

(** [for x in xs: body] *)
Fixpoint for_ {A} (xs : list A) (body : A → M ()) : M () :=
  match xs with
  | [] => mret ()
  | x :: xs' => body x ;; for_ xs' body
  end.

(** ** The agents *)

Module BaseAgent.

(** [raise NotImplementedError(...)], whatever [data] is. *)
Definition process {A B} (data : A) : M B :=
  lift (Raise NotImplementedError).

End BaseAgent.

Module PreferenceAgent.

Definition process (user_input : dict) : M dict :=
  p1 ← lift (subscript user_input "priority");
  p2 ← lift (subscript user_input "priority");
  let weights : dict :=
    {[ "time_weight" :=
         if Py.eq_str p1 "fast" then VFloat 0.6 else VFloat 0.4;
       "cost_weight" :=
         if Py.eq_str p2 "fast" then VFloat 0.4 else VFloat 0.6 ]} in
  mret weights.

End PreferenceAgent.

Module RouteAgent.

Definition process {A} (data : A) : M (list loc) :=
  a ← new_dict {[ "route" := VStr "Route A";
                  "distance" := VInt 10; "time" := VInt 20 ]};
  b ← new_dict {[ "route" := VStr "Route B";
                  "distance" := VInt 14; "time" := VInt 15 ]};
  c ← new_dict {[ "route" := VStr "Route C";
                  "distance" := VInt 8; "time" := VInt 25 ]};
  let routes := [a; b; c] in
  mret routes.

End RouteAgent.

Module CostAgent.

Definition process (routes : list loc) : M (list loc) :=
  for_ routes (λ r,
    d ← getitem r "distance";
    c ← lift (Py.mul d (VInt 5));
    setitem r "cost" c);;
  mret routes.

End CostAgent.

Module TimeAgent.

Definition process (routes : list loc) : M (list loc) :=
  for_ routes (λ r,
    t ← getitem r "time";
    s ← lift (Py.truediv (VInt 1) t);
    setitem r "score_time" s);;
  mret routes.

End TimeAgent.

Module ResourceAgent.

Definition process (routes : list loc) : M (list loc) :=
  for_ routes (λ r, setitem r "feasible" (VBool true));;
  mret routes.

End ResourceAgent.

(** ** Decision fusion *)

(** [for x in xs: body], for a body that assigns to local variables; [s] holds
    their values. *)
Fixpoint for_fold {A S} (xs : list A) (body : A → S → M S) (s : S) : M S :=
  match xs with
  | [] => mret s
  | x :: xs' => s' ← body x s; for_fold xs' body s'
  end.

Module DecisionFusion.

(** The expression assigned to [score], evaluated left to right. *)
Definition score (weights : dict) (r : loc) : M value :=
  wt ← lift (subscript weights "time_weight");
  t ← getitem r "time";
  it ← lift (Py.truediv (VInt 1) t);
  a ← lift (Py.mul wt it);
  wc ← lift (subscript weights "cost_weight");
  c ← getitem r "cost";
  ic ← lift (Py.truediv (VInt 1) c);
  b ← lift (Py.mul wc ic);
  lift (Py.add a b).

(** One iteration of the loop on the locals [(best_score, best_route)]. *)
Definition step (weights : dict) (r : loc) (best : value * option loc)
  : M (value * option loc) :=
  let '(best_score, best_route) := best in
  score ← score weights r;
  better ← lift (Py.gt score best_score);
  if better : bool then mret (score, Some r)
  else mret (best_score, best_route).

(** The loop, from [best_score = -1] and [best_route = None]. *)
Definition scan (routes : list loc) (weights : dict)
  : M (value * option loc) :=
  let best_score := VInt (-1) in
  let best_route := None in
  for_fold routes (step weights) (best_score, best_route).

Definition select_best (routes : list loc) (weights : dict)
  : M (option loc) :=
  best ← scan routes weights;
  let best_route := best.2 in
  mret best_route.

End DecisionFusion.

(** ** The simulation driver *)

(** What [print(best_route)] shows: the dictionary, or [None]. *)
Definition show (best_route : option loc) : M (option dict) :=
  λ σ, (Return (deref σ <$> best_route), σ).

Definition run_planit : M (option dict) :=
  let user_input : dict :=
    {[ "source" := VStr "Location A";
       "destination" := VStr "Location B";
       "priority" := VStr "fast" ]} in
  weights ← PreferenceAgent.process user_input;
  routes ← RouteAgent.process user_input;
  routes ← CostAgent.process routes;
  routes ← TimeAgent.process routes;
  routes ← ResourceAgent.process routes;
  best_route ← DecisionFusion.select_best routes weights;
  show best_route.

(** * Vocabulary of the statements *)

(** ** Loops that annotate every route

    The three annotating agents run [for r in routes: r[k] = e] where the
    expression [e] reads [r] at keys other than [k].  [annotation k e] is
    such a loop body, written on the dictionary [r] refers to; the agents'
    own loop bodies are proved equal to it below. *)

Definition annotation (k : string) (e : dict → outcome value) (r : loc)
  : M () :=
  λ σ, match e (deref σ r) with
       | Return v => (Return (), <[r := <[k := v]> (deref σ r)]> σ)
       | Raise x => (Raise x, σ)
       end.

(** What the loop body makes of one dictionary. *)
Definition annotated (k : string) (e : dict → outcome value) (d : dict)
  : dict :=
  match e d with
  | Return v => <[k := v]> d
  | Raise _ => d
  end.

(** The evaluation [o] raised nothing. *)
Definition returns {A} (o : outcome A) : Prop :=
  match o with Return _ => True | Raise _ => False end.

(** The right-hand sides of the three assignments: [r["distance"] * 5],
    [1 / r["time"]] and [True]. *)
Definition cost_expr (r : dict) : outcome value :=
  d ← subscript r "distance"; Py.mul d (VInt 5).

Definition score_time_expr (r : dict) : outcome value :=
  t ← subscript r "time"; Py.truediv (VInt 1) t.

Definition feasible_expr (r : dict) : outcome value :=
  Return (VBool true).

(** What an annotating agent does once its loop is over: [return routes]. *)
Definition finish (routes : list loc) (loop : outcome () * heap)
  : outcome (list loc) * heap :=
  match loop with
  | (Return _, σ') => (Return routes, σ')
  | (Raise x, σ') => (Raise x, σ')
  end.

(** [stage] writes key [k] of the routes it is given and nothing else, and
    returns the list it was given. *)
Definition only_writes (k : string) (stage : list loc → M (list loc)) : Prop :=
  ∀ (routes : list loc) (σ : heap),
    (∀ r k', k' ≠ k → deref (stage routes σ).2 r !! k' = deref σ r !! k')
    ∧ (∀ r, r ∉ routes → deref (stage routes σ).2 r = deref σ r)
    ∧ (∀ routes', (stage routes σ).1 = Return routes' →
         routes' = routes
         ∧ ∀ r, r ∈ routes → is_Some (deref (stage routes σ).2 r !! k)).

(** ** Scores *)

(** Route [r] holds the number [q] under key [k]. *)
Definition has_num (σ : heap) (r : loc) (k : string) (q : Q) : Prop :=
  ∃ v, deref σ r !! k = Some v ∧ Py.as_num v = Some q.

(** The weights dictionary holds the number [q] under key [k]. *)
Definition weight (weights : dict) (k : string) (q : Q) : Prop :=
  ∃ v, weights !! k = Some v ∧ Py.as_num v = Some q.

(** The score formula of the fusion rule. *)
Definition fusion_score (wt wc t c : Q) : Q :=
  (wt * (1 / t) + wc * (1 / c))%Q.

(** The locals of the scan after the routes [seen], for scores [sc]:
    [best_route] is [None] as long as no score exceeded the initial [-1];
    otherwise it is the first route of greatest score among [seen], and
    [best_score] is its score. *)
Definition best_of (sc : loc → Q) (seen : list loc)
    (best_score : value) (best_route : option loc) : Prop :=
  match best_route with
  | None =>
    best_score = VInt (-1) ∧ ∀ r, r ∈ seen → (sc r <= -1)%Q
  | Some r =>
    best_score = VFloat (sc r) ∧ (-1 < sc r)%Q
    ∧ ∃ i, seen !! i = Some r
        ∧ (∀ j r', seen !! j = Some r' → (sc r' <= sc r)%Q)
        ∧ (∀ j r', seen !! j = Some r' → (j < i)%nat → (sc r' < sc r)%Q)
  end.

(** ** The score on binary64 floats *)

Module Binary64.

#[local] Set Warnings "-inexact-float".

(** The expression assigned to [score], on the floats of the machine. *)
Definition score (time_weight cost_weight time cost : float) : float :=
  (time_weight * (1 / time) + cost_weight * (1 / cost))%float.

Definition fast_time_weight : float := 0.6%float.
Definition fast_cost_weight : float := 0.4%float.

(** The scores of routes A, B and C under the weights of a "fast" request. *)
Definition score_A : float := score fast_time_weight fast_cost_weight 20 50.
Definition score_B : float := score fast_time_weight fast_cost_weight 15 70.
Definition score_C : float := score fast_time_weight fast_cost_weight 25 40.

End Binary64.

(** ** Sample data *)

(** The weights of a "fast" request. *)
Definition sample_weights : dict :=
  {[ "time_weight" := VFloat 0.6; "cost_weight" := VFloat 0.4 ]}.

(** The heap of the simulation once the three routes are annotated. *)
Definition sample_heap : heap :=
  ((routes ← RouteAgent.process ();
    routes ← CostAgent.process routes;
    routes ← TimeAgent.process routes;
    ResourceAgent.process routes) ∅).2.


(** The request of the simulation and the heaps its stages leave behind. *)
Definition sample_request : dict :=
  {[ "source" := VStr "Location A";
     "destination" := VStr "Location B";
     "priority" := VStr "fast" ]}.

Definition heap_after_routes : heap :=
  (RouteAgent.process sample_request ∅).2.

Definition heap_after_cost : heap :=
  (CostAgent.process [1; 2; 3]%positive heap_after_routes).2.

Definition heap_after_time : heap :=
  (TimeAgent.process [1; 2; 3]%positive heap_after_cost).2.

(** The entry of key [k] in route [r], if any. *)
Definition field (σ : heap) (k : string) (r : loc) : option value :=
  deref σ r !! k.

(** A route of time 0 behind a sound one. *)
Definition heap_zero_time : heap :=
  {[ 1%positive := {[ "route" := VStr "Route A"; "distance" := VInt 10;
                      "time" := VInt 20 ]};
     2%positive := {[ "route" := VStr "Route Z"; "distance" := VInt 14;
                      "time" := VInt 0 ]} ]}.


(** The annotated routes, Route B marked infeasible. *)
Definition heap_infeasible_B : heap :=
  (setitem 2%positive "feasible" (VBool false) sample_heap).2.

(** Two annotated routes of negative time and cost. *)
Definition heap_negative_routes : heap :=
  {[ 1%positive := {[ "route" := VStr "Route M"; "distance" := VInt 1;
                      "time" := VInt (-1); "cost" := VInt (-1) ]};
     2%positive := {[ "route" := VStr "Route N"; "distance" := VInt 1;
                      "time" := VInt (-1); "cost" := VFloat (-0.5) ]} ]}.

(** ** Vocabulary of the further properties *)

(** The three dictionaries route generation builds. *)
Definition route_A : dict :=
  {[ "route" := VStr "Route A"; "distance" := VInt 10; "time" := VInt 20 ]}.

Definition route_B : dict :=
  {[ "route" := VStr "Route B"; "distance" := VInt 14; "time" := VInt 15 ]}.

Definition route_C : dict :=
  {[ "route" := VStr "Route C"; "distance" := VInt 8; "time" := VInt 25 ]}.

(** Route B once the three annotating agents have run. *)
Definition route_B_annotated : dict :=
  {[ "route" := VStr "Route B"; "distance" := VInt 14; "time" := VInt 15;
     "cost" := VInt 70; "score_time" := VFloat (1 # 15);
     "feasible" := VBool true ]}.

(** The weights of a request whose priority is not "fast". *)
Definition cheap_weights : dict :=
  {[ "time_weight" := VFloat 0.4; "cost_weight" := VFloat 0.6 ]}.

(** The body of [run_planit] after the assignment to [user_input], for any
    [user_input]; [run_planit] is [pipeline] on its own request. *)
Definition pipeline (user_input : dict) : M (option dict) :=
  weights ← PreferenceAgent.process user_input;
  routes ← RouteAgent.process user_input;
  routes ← CostAgent.process routes;
  routes ← TimeAgent.process routes;
  routes ← ResourceAgent.process routes;
  best_route ← DecisionFusion.select_best routes weights;
  show best_route.



(** A route without a distance behind a sound one. *)
Definition heap_no_distance : heap :=
  {[ 1%positive := {[ "route" := VStr "Route A"; "distance" := VInt 10;
                      "time" := VInt 20 ]};
     2%positive := {[ "route" := VStr "Route Y"; "time" := VInt 15 ]} ]}.

(** The scores of the two routes of [heap_negative_routes]. *)
Definition negative_score (r : loc) : Q :=
  match r with
  | 1%positive => fusion_score 0.6 0.4 (inject_Z (-1)) (inject_Z (-1))
  | _ => fusion_score 0.6 0.4 (inject_Z (-1)) (-0.5)
  end.



(** * Properties *)

(** ** Reading and writing the heap *)

Lemma deref_insert (σ : heap) (r r' : loc) (d : dict) :
  deref (<[r := d]> σ) r' = if decide (r = r') then d else deref σ r'.
Proof.
  unfold deref. rewrite lookup_insert. by case_decide.
Qed.

Lemma for_cons {A} (x : A) (xs : list A) (body : A → M ()) (σ : heap) :
  for_ (x :: xs) body σ
  = match body x σ with
    | (Return _, σ') => for_ xs body σ'
    | (Raise e, σ') => (Raise e, σ')
    end.
Proof. reflexivity. Qed.

Lemma for_fold_cons {A S} (x : A) (xs : list A) (body : A → S → M S) s σ :
  for_fold (x :: xs) body s σ
  = match body x s σ with
    | (Return s', σ') => for_fold xs body s' σ'
    | (Raise e, σ') => (Raise e, σ')
    end.
Proof. reflexivity. Qed.

(** ** Loops that annotate every route *)

Section annotation.
Variables (k : string) (e : dict → outcome value).
Hypothesis e_frame : ∀ d v, e (<[k := v]> d) = e d.

Lemma annotation_run r σ :
  annotation k e r σ
  = match e (deref σ r) with
    | Return v => (Return (), <[r := <[k := v]> (deref σ r)]> σ)
    | Raise x => (Raise x, σ)
    end.
Proof. reflexivity. Qed.

Lemma e_annotated d : e (annotated k e d) = e d.
Proof. unfold annotated. destruct (e d) eqn:E; [by rewrite e_frame|done]. Qed.

Lemma annotated_idemp d : annotated k e (annotated k e d) = annotated k e d.
Proof.
  unfold annotated at 1. rewrite e_annotated.
  unfold annotated. destruct (e d) eqn:E; [|done].
  by rewrite insert_insert_eq.
Qed.

Lemma annotated_other d k' : k' ≠ k → annotated k e d !! k' = d !! k'.
Proof.
  intros. unfold annotated. destruct (e d); [|done].
  by rewrite lookup_insert_ne.
Qed.

(** Whatever the loop does, it touches key [k] only, and only in the
    dictionaries of the list. *)
Lemma for_annotation_frame routes σ :
  ∀ r, deref (for_ routes (annotation k e) σ).2 r = deref σ r
       ∨ (r ∈ routes
          ∧ deref (for_ routes (annotation k e) σ).2 r
            = annotated k e (deref σ r)).
Proof.
  revert σ. induction routes as [|x xs IH]; intros σ r; [by left|].
  rewrite for_cons, annotation_run.
  destruct (e (deref σ x)) eqn:E; [|by left].
  destruct (IH (<[x := <[k := a]> (deref σ x)]> σ) r) as [->|[Hin ->]].
  - rewrite deref_insert. case_decide as Hx; [subst x|by left].
    right. split; [apply list_elem_of_here|].
    unfold annotated. by rewrite E.
  - right. split; [by apply list_elem_of_further|].
    rewrite deref_insert. case_decide as Hx; [subst x|done].
    replace (<[k := a]> (deref σ r)) with (annotated k e (deref σ r))
      by (unfold annotated; by rewrite E).
    apply annotated_idemp.
Qed.

(** The loop runs to its end when [e] can be evaluated on every route, and
    then every route of the list is annotated. *)
Lemma for_annotation_returns routes σ :
  (∀ r, r ∈ routes → returns (e (deref σ r))) →
  ∃ σ', for_ routes (annotation k e) σ = (Return (), σ')
        ∧ ∀ r, deref σ' r = if decide (r ∈ routes)
                            then annotated k e (deref σ r)
                            else deref σ r.
Proof.
  revert σ. induction routes as [|x xs IH]; intros σ Hok.
  - exists σ. split; [done|]. intros r. rewrite decide_False; [done|].
    apply not_elem_of_nil.
  - rewrite for_cons, annotation_run.
    pose proof (Hok x (list_elem_of_here _ _)) as Hx.
    destruct (e (deref σ x)) eqn:E; [clear Hx|done].
    set (σ1 := <[x := <[k := a]> (deref σ x)]> σ).
    assert (Hd : ∀ r, deref σ1 r = if decide (x = r)
                                    then annotated k e (deref σ x)
                                    else deref σ r).
    { intros r. unfold σ1. rewrite deref_insert.
      case_decide; [|done]. unfold annotated. by rewrite E. }
    destruct (IH σ1) as (σ' & Hrun & Hσ').
    { intros r Hr. rewrite Hd. case_decide as Hxr.
      - subst r. rewrite e_annotated, E. done.
      - apply Hok. by apply list_elem_of_further. }
    exists σ'. split; [done|]. intros r. rewrite Hσ', Hd.
    destruct (decide (x = r)) as [->|Hne].
    + rewrite (decide_True (P := r ∈ r :: xs)) by apply list_elem_of_here.
      case_decide; [apply annotated_idemp|done].
    + destruct (decide (r ∈ xs)) as [Hin|Hnin].
      * rewrite decide_True; [done|by apply list_elem_of_further].
      * rewrite decide_False; [done|].
        intros [?|?]%elem_of_cons; congruence.
Qed.


(** Conversely the loop raises as soon as [e] raises on some route. *)
Lemma for_annotation_fails routes σ r :
  r ∈ routes → ¬ returns (e (deref σ r)) →
  ∃ x σ', for_ routes (annotation k e) σ = (Raise x, σ').
Proof.
  revert σ. induction routes as [|y ys IH]; intros σ Hin Hr.
  - by apply not_elem_of_nil in Hin.
  - rewrite for_cons, annotation_run.
    destruct (e (deref σ y)) eqn:E; [|by eauto].
    apply elem_of_cons in Hin as [->|Hin]; [by rewrite E in Hr|].
    apply IH; [done|].
    rewrite deref_insert. case_decide; [subst y|done].
    by rewrite e_frame.
Qed.

End annotation.

Lemma for_ext {A} (xs : list A) (f g : A → M ()) :
  (∀ x σ, f x σ = g x σ) → ∀ σ, for_ xs f σ = for_ xs g σ.
Proof.
  intros Hfg. induction xs as [|x xs IH]; intros σ; [done|].
  rewrite !for_cons, Hfg. destruct (g x σ) as [[]]; [apply IH|done].
Qed.

(** ** The three annotating agents as such loops *)

Lemma subscript_insert_ne (d : dict) (k k' : string) (v : value) :
  k ≠ k' → subscript (<[k := v]> d) k' = subscript d k'.
Proof. intros. unfold subscript. by rewrite lookup_insert_ne. Qed.

Lemma cost_expr_frame d v : cost_expr (<[ "cost" := v ]> d) = cost_expr d.
Proof. unfold cost_expr. by rewrite subscript_insert_ne. Qed.

Lemma score_time_expr_frame d v :
  score_time_expr (<[ "score_time" := v ]> d) = score_time_expr d.
Proof. unfold score_time_expr. by rewrite subscript_insert_ne. Qed.

Lemma feasible_expr_frame d v :
  feasible_expr (<[ "feasible" := v ]> d) = feasible_expr d.
Proof. reflexivity. Qed.

Lemma CostAgent_process_run routes σ :
  CostAgent.process routes σ
  = finish routes (for_ routes (annotation "cost" cost_expr) σ).
Proof.
  unfold CostAgent.process, finish, mbind at 1, M_bind at 1.
  erewrite for_ext; [reflexivity|]. clear. intros r σ.
  unfold annotation, cost_expr, getitem, lift, setitem, mbind, M_bind,
    outcome_bind.
  destruct (subscript (deref σ r) "distance"); [|done].
  by destruct (Py.mul a (VInt 5)).
Qed.

Lemma TimeAgent_process_run routes σ :
  TimeAgent.process routes σ
  = finish routes (for_ routes (annotation "score_time" score_time_expr) σ).
Proof.
  unfold TimeAgent.process, finish, mbind at 1, M_bind at 1.
  erewrite for_ext; [reflexivity|]. clear. intros r σ.
  unfold annotation, score_time_expr, getitem, lift, setitem, mbind, M_bind,
    outcome_bind.
  destruct (subscript (deref σ r) "time"); [|done].
  by destruct (Py.truediv (VInt 1) a).
Qed.

Lemma ResourceAgent_process_run routes σ :
  ResourceAgent.process routes σ
  = finish routes (for_ routes (annotation "feasible" feasible_expr) σ).
Proof.
  unfold ResourceAgent.process, finish, mbind at 1, M_bind at 1.
  erewrite for_ext; [reflexivity|]. done.
Qed.

(** ** Frame of an annotating agent *)

Lemma annotation_only_writes k e stage :
  (∀ d v, e (<[k := v]> d) = e d) →
  (∀ routes σ,
     stage routes σ = finish routes (for_ routes (annotation k e) σ)) →
  only_writes k stage.
Proof.
  intros Hframe Hrun routes σ. rewrite Hrun.
  pose proof (for_annotation_frame k e Hframe routes σ) as Hfr.
  assert (Hheap : ∀ o, (finish routes o).2 = o.2) by (by intros [[]]).
  rewrite Hheap. split_and!.
  - intros r k' Hk'. destruct (Hfr r) as [->|[_ ->]]; [done|].
    by apply annotated_other.
  - intros r Hr. destruct (Hfr r) as [->|[? _]]; done.
  - intros routes' Hret.
    destruct (for_ routes (annotation k e) σ) as [[[]|x] σ'] eqn:Hloop;
      [|done].
    injection Hret as <-. split; [done|]. intros r Hr.
    assert (Hall : ∀ r, r ∈ routes → returns (e (deref σ r))).
    { intros r' Hr'. destruct (e (deref σ r')) eqn:E; [done|].
      destruct (for_annotation_fails k e Hframe routes σ r' Hr')
        as (? & ? & ?); [rewrite E; intros []|congruence]. }
    destruct (for_annotation_returns k e Hframe routes σ Hall)
      as (σ'' & Hrun' & Hσ'').
    rewrite Hloop in Hrun'. injection Hrun' as <-. cbn.
    rewrite Hσ'', decide_True by done. unfold annotated.
    specialize (Hall r Hr).
    destruct (e (deref σ r)); [|done]. rewrite lookup_insert_eq. eauto.
Qed.

(** ** The fusion score *)

Lemma Qcompare_0_ne (q : Q) : ¬ (q == 0)%Q → Qcompare q 0 ≠ Eq.
Proof. intros Hq Hc. by apply Qeq_alt in Hc. Qed.

Lemma truediv_one v q :
  Py.as_num v = Some q → ¬ (q == 0)%Q →
  Py.truediv (VInt 1) v = Return (VFloat (1 / q)%Q).
Proof.
  intros Hv Hq. unfold Py.truediv. cbn [Py.as_num]. rewrite Hv.
  apply Qcompare_0_ne in Hq. by destruct (Qcompare q 0).
Qed.

Lemma mul_float v a q :
  Py.as_num v = Some a → Py.mul v (VFloat q) = Return (VFloat (a * q)%Q).
Proof. intros Hv. unfold Py.mul. by destruct v; simplify_eq/=. Qed.

Lemma score_run weights σ r wt wc t c :
  weight weights "time_weight" wt → weight weights "cost_weight" wc →
  has_num σ r "time" t → has_num σ r "cost" c →
  ¬ (t == 0)%Q → ¬ (c == 0)%Q →
  DecisionFusion.score weights r σ
  = (Return (VFloat (fusion_score wt wc t c)), σ).
Proof.
  intros (vwt & Hwt & Hwt') (vwc & Hwc & Hwc') (vt & Ht & Ht')
    (vc & Hc & Hc') Ht0 Hc0.
  unfold DecisionFusion.score, getitem, lift, mbind, M_bind, subscript.
  rewrite Hwt, Ht, (truediv_one _ _ Ht' Ht0), (mul_float _ _ _ Hwt').
  rewrite Hwc, Hc, (truediv_one _ _ Hc' Hc0), (mul_float _ _ _ Hwc').
  reflexivity.
Qed.

(** The scan only reads the heap. *)
Lemma score_heap weights r σ : (DecisionFusion.score weights r σ).2 = σ.
Proof.
  unfold DecisionFusion.score, getitem, lift, mbind, M_bind.
  repeat (match goal with
          | |- context [match ?o with Return _ => _ | Raise _ => _ end] =>
              destruct o
          end; cbn; try done).
Qed.

(** ** The scan keeps the first route of greatest score *)

Lemma gt_float s v b :
  Py.as_num v = Some b →
  Py.gt (VFloat s) v
  = Return (match Qcompare s b with Gt => true | _ => false end).
Proof. intros Hv. unfold Py.gt. cbn [Py.as_num]. by rewrite Hv. Qed.

Lemma best_of_step sc seen bs br r :
  best_of sc seen bs br →
  ∃ b, Py.as_num bs = Some b
    ∧ if (match Qcompare (sc r) b with Gt => true | _ => false end)
      then best_of sc (seen ++ [r]) (VFloat (sc r)) (Some r)
      else best_of sc (seen ++ [r]) bs br.
Proof.
  destruct br as [r0|]; cbn [best_of].
  - intros (-> & Hr0 & i & Hi & Hmax & Hfirst). exists (sc r0).
    split; [done|].
    destruct (Qcompare (sc r) (sc r0)) eqn:C.
    + apply Qeq_alt in C. split_and!; [done..|]. exists i.
      split_and!.
      * by apply lookup_app_l_Some.
      * intros j r' [?|[_ Hj]]%lookup_app_Some; [by eapply Hmax|].
        apply list_lookup_singleton_Some in Hj as [_ <-]. lra.
      * intros j r' [?|[Hge _]]%lookup_app_Some Hlt; [by eapply Hfirst|].
        apply lookup_lt_Some in Hi. lia.
    + apply Qlt_alt in C. split_and!; [done..|]. exists i.
      split_and!.
      * by apply lookup_app_l_Some.
      * intros j r' [?|[_ Hj]]%lookup_app_Some; [by eapply Hmax|].
        apply list_lookup_singleton_Some in Hj as [_ <-]. lra.
      * intros j r' [?|[Hge _]]%lookup_app_Some Hlt; [by eapply Hfirst|].
        apply lookup_lt_Some in Hi. lia.
    + apply Qgt_alt in C. split_and!; [done|lra|]. exists (length seen).
      split_and!.
      * rewrite lookup_app_r, Nat.sub_diag by lia. done.
      * intros j r' [Hj|[_ Hj]]%lookup_app_Some.
        -- specialize (Hmax j r' Hj). lra.
        -- apply list_lookup_singleton_Some in Hj as [_ <-]. lra.
      * intros j r' [Hj|[Hge _]]%lookup_app_Some Hlt; [|lia].
        specialize (Hmax j r' Hj). lra.
  - intros (-> & Hall). exists (inject_Z (-1)). split; [done|].
    destruct (Qcompare (sc r) (inject_Z (-1))) eqn:C.
    + apply Qeq_alt in C. split; [done|].
      intros r' [?|Hr']%elem_of_app; [by apply Hall|].
      apply list_elem_of_singleton in Hr' as ->.
      unfold inject_Z in C. lra.
    + apply Qlt_alt in C. split; [done|].
      intros r' [?|Hr']%elem_of_app; [by apply Hall|].
      apply list_elem_of_singleton in Hr' as ->.
      unfold inject_Z in C. lra.
    + apply Qgt_alt in C. unfold inject_Z in C. split_and!; [done|lra|].
      exists (length seen). split_and!.
      * rewrite lookup_app_r, Nat.sub_diag by lia. done.
      * intros j r' [Hj|[_ Hj]]%lookup_app_Some.
        -- apply list_elem_of_lookup_2 in Hj. specialize (Hall r' Hj). lra.
        -- apply list_lookup_singleton_Some in Hj as [_ <-]. lra.
      * intros j r' [Hj|[Hge _]]%lookup_app_Some Hlt; [|lia].
        apply list_elem_of_lookup_2 in Hj. specialize (Hall r' Hj). lra.
Qed.

Lemma scan_best_of weights σ sc routes :
  ∀ seen bs br,
    (∀ r, r ∈ routes →
       DecisionFusion.score weights r σ = (Return (VFloat (sc r)), σ)) →
    best_of sc seen bs br →
    ∃ bs' br',
      for_fold routes (DecisionFusion.step weights) (bs, br) σ
      = (Return (bs', br'), σ)
      ∧ best_of sc (seen ++ routes) bs' br'.
Proof.
  induction routes as [|r rs IH]; intros seen bs br Hsc Hbest.
  - exists bs, br. rewrite app_nil_r. done.
  - rewrite for_fold_cons.
    destruct (best_of_step sc seen bs br r Hbest) as (b & Hb & Hnext).
    unfold DecisionFusion.step at 1. unfold mbind at 1, M_bind at 1.
    rewrite (Hsc r) by apply list_elem_of_here.
    unfold lift, mbind, M_bind. rewrite (gt_float _ _ _ Hb).
    destruct (match Qcompare (sc r) b with Gt => true | _ => false end);
      cbn -[for_fold].
    + destruct (IH (seen ++ [r])%list (VFloat (sc r)) (Some r))
        as (bs' & br' & Hrun & Hfin); [|done|].
      { intros. by apply Hsc, list_elem_of_further. }
      exists bs', br'. by rewrite cons_middle, app_assoc.
    + destruct (IH (seen ++ [r])%list bs br)
        as (bs' & br' & Hrun & Hfin); [|done|].
      { intros. by apply Hsc, list_elem_of_further. }
      exists bs', br'. by rewrite cons_middle, app_assoc.
Qed.

(** ** The sample scores on binary64 floats

    On the floats of the machine as on the rationals: 0.6 + 0.4 is 1, Route B
    scores above Route A and Route A above Route C, and a time and a cost of
    -1 give the score -1 exactly, which does not exceed the initial -1. *)

Lemma binary64_sample_scores :
  PrimFloat.eqb (Binary64.fast_time_weight + Binary64.fast_cost_weight) 1
  = true
  ∧ PrimFloat.ltb Binary64.score_A Binary64.score_B = true
  ∧ PrimFloat.ltb Binary64.score_C Binary64.score_A = true
  ∧ PrimFloat.ltb (-1) Binary64.score_C = true
  ∧ PrimFloat.eqb
      (Binary64.score Binary64.fast_time_weight Binary64.fast_cost_weight
         (-1) (-1)) (-1)
    = true.
Proof. repeat split; vm_compute; reflexivity. Qed.

(** ** Claims *)




(** C2.  The pipeline on a request of priority "fast": the weights are
    0.6 and 0.4; the routes are A (distance 10, time 20), B (14, 15) and
    C (8, 25); their costs are 50, 70 and 40; their time scores are 0.05,
    1/15 and 0.04; their fusion scores are 0.038, 16/350 and 0.034; fusion
    selects Route B, and this is what [run_planit] prints. *)
Theorem scenario_fast_selects_route_B :
  PreferenceAgent.process sample_request ∅
  = (Return sample_weights, ∅)
  ∧ RouteAgent.process sample_request ∅
    = (Return [1; 2; 3]%positive, heap_after_routes)
  ∧ deref heap_after_routes <$> [1; 2; 3]%positive
    = [ {[ "route" := VStr "Route A"; "distance" := VInt 10;
           "time" := VInt 20 ]};
        {[ "route" := VStr "Route B"; "distance" := VInt 14;
           "time" := VInt 15 ]};
        {[ "route" := VStr "Route C"; "distance" := VInt 8;
           "time" := VInt 25 ]} ]
  ∧ CostAgent.process [1; 2; 3]%positive heap_after_routes
    = (Return [1; 2; 3]%positive, heap_after_cost)
  ∧ field heap_after_cost "cost" <$> [1; 2; 3]%positive
    = [Some (VInt 50); Some (VInt 70); Some (VInt 40)]
  ∧ TimeAgent.process [1; 2; 3]%positive heap_after_cost
    = (Return [1; 2; 3]%positive, heap_after_time)
  ∧ field heap_after_time "score_time" <$> [1; 2; 3]%positive
    = [Some (VFloat (1 # 20)); Some (VFloat (1 # 15)); Some (VFloat (1 # 25))]
  ∧ (1 # 20 == 0.05)%Q ∧ (1 # 25 == 0.04)%Q
  ∧ ResourceAgent.process [1; 2; 3]%positive heap_after_time
    = (Return [1; 2; 3]%positive, sample_heap)
  ∧ (∃ a b c,
       (λ r, (DecisionFusion.score sample_weights r sample_heap).1)
         <$> [1; 2; 3]%positive
       = [Return (VFloat a); Return (VFloat b); Return (VFloat c)]
       ∧ (a == 0.038)%Q ∧ (b == 16 # 350)%Q ∧ (c == 0.034)%Q)
  ∧ DecisionFusion.select_best [1; 2; 3]%positive sample_weights sample_heap
    = (Return (Some 2%positive), sample_heap)
  ∧ run_planit ∅
    = (Return (Some {[ "route" := VStr "Route B"; "distance" := VInt 14;
                       "time" := VInt 15; "cost" := VInt 70;
                       "score_time" := VFloat (1 # 15);
                       "feasible" := VBool true ]}),
       sample_heap).
Proof.
  split_and!; try (vm_compute; reflexivity).
  eexists _, _, _. split; [vm_compute; reflexivity|].
  split_and!; vm_compute; reflexivity.
Qed.

(** C3.  On a request that has a priority, preference interpretation returns
    time_weight 0.6 and cost_weight 0.4 when the priority is "fast", and
    time_weight 0.4 and cost_weight 0.6 for every other priority; the two
    weights sum to 1 in both cases. *)
Theorem preference_weights (user_input : dict) (priority : value) (σ : heap) :
  user_input !! "priority" = Some priority →
  ∃ tw cw : Q,
    PreferenceAgent.process user_input σ
    = (Return {[ "time_weight" := VFloat tw; "cost_weight" := VFloat cw ]}, σ)
    ∧ (priority = VStr "fast" → tw = 0.6%Q ∧ cw = 0.4%Q)
    ∧ (priority ≠ VStr "fast" → tw = 0.4%Q ∧ cw = 0.6%Q)
    ∧ (tw + cw == 1)%Q.
Proof.
  intros Hp.
  unfold PreferenceAgent.process, lift, mbind, M_bind, mret, M_ret, subscript.
  rewrite Hp.
  destruct (Py.eq_str priority "fast") eqn:E.
  - exists 0.6%Q, 0.4%Q. split_and!; [done|done| |reflexivity].
    intros Hne. destruct priority; try discriminate. cbn in E.
    apply bool_decide_eq_true in E. congruence.
  - exists 0.4%Q, 0.6%Q. split_and!; [done| |done|reflexivity].
    intros ->. cbn in E. by apply bool_decide_eq_false in E.
Qed.

Lemma preference_weights_witness :
  ∃ tw cw : Q,
    PreferenceAgent.process {[ "priority" := VStr "cheap" ]} ∅
    = (Return {[ "time_weight" := VFloat tw; "cost_weight" := VFloat cw ]}, ∅)
    ∧ (VStr "cheap" = VStr "fast" → tw = 0.6%Q ∧ cw = 0.4%Q)
    ∧ (VStr "cheap" ≠ VStr "fast" → tw = 0.4%Q ∧ cw = 0.6%Q)
    ∧ (tw + cw == 1)%Q.
Proof.
  apply (preference_weights {[ "priority" := VStr "cheap" ]} (VStr "cheap") ∅).
  vm_compute. reflexivity.
Defined.



Lemma score_time_expr_run σ r t :
  has_num σ r "time" t →
  score_time_expr (deref σ r)
  = match Qcompare t 0 with
    | Eq => Raise ZeroDivisionError
    | _ => Return (VFloat (1 / t)%Q)
    end.
Proof.
  intros (v & Hv & Ht). unfold score_time_expr, subscript. rewrite Hv. cbn.
  unfold Py.truediv. cbn [Py.as_num]. by rewrite Ht.
Qed.




(** C6, as the code has it.  On an empty list of routes decision fusion
    raises nothing: it returns [None], whatever the weights are, and leaves
    the heap as it was. *)
Theorem select_best_empty (weights : dict) (σ : heap) :
  DecisionFusion.select_best [] weights σ = (Return None, σ).
Proof. reflexivity. Qed.

(** C6, as the specification states it, fails: no ValidationError is raised
    on the empty list. *)
Lemma select_best_empty_no_validation_error :
  (DecisionFusion.select_best [] sample_weights ∅).1 = Return None
  ∧ (DecisionFusion.select_best [] sample_weights ∅).1
    ≠ Raise ValidationError.
Proof. split; [reflexivity|discriminate]. Qed.

(** C7.  Cost estimation, time evaluation and the feasibility check each
    leave every key but their own ("cost", "score_time", "feasible") of
    every dictionary as it was, leave the dictionaries outside the list
    untouched, and when they return they return the list they were given,
    every route of which then has the stage's key. *)
Theorem annotating_agents_frame :
  only_writes "cost" CostAgent.process
  ∧ only_writes "score_time" TimeAgent.process
  ∧ only_writes "feasible" ResourceAgent.process.
Proof.
  split_and!.
  - exact (annotation_only_writes "cost" cost_expr CostAgent.process
             cost_expr_frame CostAgent_process_run).
  - exact (annotation_only_writes "score_time" score_time_expr
             TimeAgent.process score_time_expr_frame TimeAgent_process_run).
  - exact (annotation_only_writes "feasible" feasible_expr
             ResourceAgent.process feasible_expr_frame
             ResourceAgent_process_run).
Qed.

(** ** Fusion reads the time and the cost of a route, nothing else *)

Lemma score_agree weights r σ1 σ2 :
  deref σ1 r !! "time" = deref σ2 r !! "time" →
  deref σ1 r !! "cost" = deref σ2 r !! "cost" →
  (DecisionFusion.score weights r σ1).1
  = (DecisionFusion.score weights r σ2).1.
Proof.
  intros Ht Hc.
  unfold DecisionFusion.score, getitem, lift, mbind, M_bind, subscript.
  rewrite Ht, Hc.
  repeat (match goal with
          | |- context [match ?o with Return _ => _ | Raise _ => _ end] =>
              destruct o
          | |- context [match ?o with Some _ => _ | None => _ end] =>
              destruct o
          end; cbn; try done).
Qed.

Lemma step_heap weights r best σ :
  (DecisionFusion.step weights r best σ).2 = σ.
Proof.
  destruct best as [bs br]. unfold DecisionFusion.step.
  unfold mbind at 1, M_bind at 1.
  pose proof (score_heap weights r σ) as Hσ.
  destruct (DecisionFusion.score weights r σ) as [[s|x] σ']; cbn in Hσ;
    subst σ'; [|done].
  unfold lift, mbind, M_bind. destruct (Py.gt s bs) as [[]|]; done.
Qed.

Lemma step_agree weights r best σ1 σ2 :
  deref σ1 r !! "time" = deref σ2 r !! "time" →
  deref σ1 r !! "cost" = deref σ2 r !! "cost" →
  (DecisionFusion.step weights r best σ1).1
  = (DecisionFusion.step weights r best σ2).1.
Proof.
  intros Ht Hc. destruct best as [bs br]. unfold DecisionFusion.step.
  unfold mbind at 1 3, M_bind at 1 3.
  pose proof (score_agree weights r σ1 σ2 Ht Hc) as Hs.
  destruct (DecisionFusion.score weights r σ1) as [[s1|x1] σ1'],
    (DecisionFusion.score weights r σ2) as [[s2|x2] σ2']; simplify_eq/=;
    [|done].
  unfold lift, mbind, M_bind. destruct (Py.gt s2 bs) as [[]|]; done.
Qed.

Lemma for_fold_step_agree weights routes σ1 σ2 :
  (∀ r, r ∈ routes →
     deref σ1 r !! "time" = deref σ2 r !! "time"
     ∧ deref σ1 r !! "cost" = deref σ2 r !! "cost") →
  ∀ best,
    (for_fold routes (DecisionFusion.step weights) best σ1).1
    = (for_fold routes (DecisionFusion.step weights) best σ2).1.
Proof.
  induction routes as [|r rs IH]; intros Hagree best; [done|].
  rewrite !for_fold_cons.
  destruct (Hagree r (list_elem_of_here _ _)) as [Ht Hc].
  pose proof (step_agree weights r best σ1 σ2 Ht Hc) as Hs.
  pose proof (step_heap weights r best σ1) as H1.
  pose proof (step_heap weights r best σ2) as H2.
  destruct (DecisionFusion.step weights r best σ1) as [[b1|x1] σ1'],
    (DecisionFusion.step weights r best σ2) as [[b2|x2] σ2'];
    simplify_eq/=; [|done].
  apply IH. intros. by apply Hagree, list_elem_of_further.
Qed.

(** C8.  On two heaps whose routes differ at most by their "feasible"
    entries (its value, or its presence), the scan of decision fusion ends
    with the same best score and the same best route, or with the same
    exception, and so [select_best] returns the same route. *)
Theorem fusion_ignores_feasible (routes : list loc) (weights : dict)
    (σ1 σ2 : heap) :
  (∀ r, r ∈ routes →
     delete "feasible" (deref σ1 r) = delete "feasible" (deref σ2 r)) →
  (DecisionFusion.scan routes weights σ1).1
  = (DecisionFusion.scan routes weights σ2).1
  ∧ (DecisionFusion.select_best routes weights σ1).1
    = (DecisionFusion.select_best routes weights σ2).1.
Proof.
  intros Hsame.
  assert (Hscan : (DecisionFusion.scan routes weights σ1).1
                  = (DecisionFusion.scan routes weights σ2).1).
  { unfold DecisionFusion.scan. apply for_fold_step_agree.
    intros r Hr. specialize (Hsame r Hr).
    split.
    - rewrite <- (lookup_delete_ne (deref σ1 r) "feasible" "time") by done.
      rewrite <- (lookup_delete_ne (deref σ2 r) "feasible" "time") by done.
      by rewrite Hsame.
    - rewrite <- (lookup_delete_ne (deref σ1 r) "feasible" "cost") by done.
      rewrite <- (lookup_delete_ne (deref σ2 r) "feasible" "cost") by done.
      by rewrite Hsame. }
  split; [done|].
  unfold DecisionFusion.select_best, mbind, M_bind.
  destruct (DecisionFusion.scan routes weights σ1) as [[b1|x1] σ1'],
    (DecisionFusion.scan routes weights σ2) as [[b2|x2] σ2'];
    by simplify_eq/=.
Qed.

Lemma fusion_ignores_feasible_witness :
  (DecisionFusion.scan [1; 2; 3]%positive sample_weights sample_heap).1
  = (DecisionFusion.scan [1; 2; 3]%positive sample_weights
       heap_infeasible_B).1
  ∧ (DecisionFusion.select_best [1; 2; 3]%positive sample_weights
       sample_heap).1
    = (DecisionFusion.select_best [1; 2; 3]%positive sample_weights
         heap_infeasible_B).1.
Proof.
  apply (fusion_ignores_feasible [1; 2; 3]%positive sample_weights
           sample_heap heap_infeasible_B).
  intros r Hr.
  assert (Hcases : r = 1%positive ∨ r = 2%positive ∨ r = 3%positive).
  { repeat (apply elem_of_cons in Hr as [Hr|Hr]; [tauto|]).
    by apply not_elem_of_nil in Hr. }
  destruct Hcases as [-> | [-> | ->]]; vm_compute; reflexivity.
Defined.

(** C9.  The [process] of the base agent raises NotImplementedError on every
    input, in every heap, and leaves the heap as it was. *)
Theorem base_agent_process_not_implemented {A B : Type} (data : A) (σ : heap) :
  BaseAgent.process (B := B) data σ = (Raise NotImplementedError, σ).
Proof. reflexivity. Qed.

(** C10.  There is a non-empty list of routes, every score of which is
    computed and is at most -1, on which decision fusion returns [None]:
    two routes of time -1 and of costs -1 and -0.5, under the weights 0.6
    and 0.4, have the scores -1 and -1.4. *)
Theorem select_best_none_on_non_empty :
  ∃ (σ : heap) (routes : list loc) (weights : dict),
    routes ≠ []
    ∧ (∀ r, r ∈ routes →
         ∃ s, DecisionFusion.score weights r σ = (Return (VFloat s), σ)
              ∧ (s <= -1)%Q)
    ∧ DecisionFusion.select_best routes weights σ = (Return None, σ).
Proof.
  exists heap_negative_routes, [1; 2]%positive, sample_weights.
  split_and!; [done| |vm_compute; reflexivity].
  intros r Hr.
  assert (Hcases : r = 1%positive ∨ r = 2%positive).
  { repeat (apply elem_of_cons in Hr as [Hr|Hr]; [tauto|]).
    by apply not_elem_of_nil in Hr. }
  destruct Hcases as [-> | ->]; eexists;
    (split; [vm_compute; reflexivity|vm_compute; discriminate]).
Qed.

(** * Further properties of the agents and of decision fusion *)

(** ** More on the annotating loops *)

Lemma for_app {A} (xs ys : list A) (body : A → M ()) (σ : heap) :
  for_ (xs ++ ys) body σ
  = match for_ xs body σ with
    | (Return _, σ') => for_ ys body σ'
    | (Raise x, σ') => (Raise x, σ')
    end.
Proof.
  revert σ. induction xs as [|x xs IH]; intros σ; [done|].
  rewrite <- app_comm_cons, !for_cons.
  destruct (body x σ) as [[[]|] σ']; [apply IH|done].
Qed.

Section annotation_heap.
Variables (k : string) (e : dict → outcome value).
Hypothesis e_frame : ∀ d v, e (<[k := v]> d) = e d.

(** A loop that ran to its end could evaluate [e] on every route. *)
Lemma for_annotation_returned routes σ σ' :
  for_ routes (annotation k e) σ = (Return (), σ') →
  ∀ r, r ∈ routes → returns (e (deref σ r)).
Proof.
  intros Hrun r Hr. destruct (e (deref σ r)) eqn:E; [done|].
  destruct (for_annotation_fails k e e_frame routes σ r Hr) as (? & ? & ?);
    [rewrite E; intros []|congruence].
Qed.

(** The heap after a loop that runs to its end, binding by binding. *)
Lemma for_annotation_lookup routes σ :
  (∀ r, r ∈ routes → returns (e (deref σ r))) →
  ∃ σ', for_ routes (annotation k e) σ = (Return (), σ')
        ∧ ∀ r, σ' !! r = if decide (r ∈ routes)
                         then Some (annotated k e (deref σ r))
                         else σ !! r.
Proof.
  revert σ. induction routes as [|x xs IH]; intros σ Hok.
  - exists σ. split; [done|]. intros r. rewrite decide_False; [done|].
    apply not_elem_of_nil.
  - rewrite for_cons, (annotation_run k e).
    pose proof (Hok x (list_elem_of_here _ _)) as Hx.
    destruct (e (deref σ x)) eqn:E; [clear Hx|done].
    set (σ1 := <[x := <[k := a]> (deref σ x)]> σ).
    assert (Hann : <[k := a]> (deref σ x) = annotated k e (deref σ x)).
    { unfold annotated. by rewrite E. }
    assert (Hd : ∀ r, deref σ1 r = if decide (x = r)
                                    then annotated k e (deref σ x)
                                    else deref σ r).
    { intros r. unfold σ1. rewrite deref_insert, Hann. done. }
    destruct (IH σ1) as (σ' & Hrun & Hσ').
    { intros r Hr. rewrite Hd. case_decide as Hxr.
      - subst r. rewrite (e_annotated k e e_frame), E. done.
      - apply Hok. by apply list_elem_of_further. }
    exists σ'. split; [done|]. intros r. rewrite Hσ', Hd.
    destruct (decide (x = r)) as [<-|Hne].
    + rewrite (decide_True (P := x ∈ x :: xs)) by apply list_elem_of_here.
      case_decide.
      * by rewrite (annotated_idemp k e e_frame).
      * unfold σ1. by rewrite lookup_insert_eq, Hann.
    + destruct (decide (r ∈ xs)) as [Hin|Hnin].
      * rewrite decide_True; [done|by apply list_elem_of_further].
      * rewrite decide_False.
        -- unfold σ1. by rewrite lookup_insert_ne.
        -- intros [?|?]%elem_of_cons; congruence.
Qed.

(** The loop stops at the first route on which [e] raises: the routes
    before it are annotated, and the heap is left as they made it. *)
Lemma for_annotation_first_fault xs r ys σ σ1 x :
  for_ xs (annotation k e) σ = (Return (), σ1) →
  e (deref σ r) = Raise x →
  for_ (xs ++ r :: ys) (annotation k e) σ = (Raise x, σ1).
Proof.
  intros Hxs Hr. rewrite for_app, Hxs, for_cons, (annotation_run k e).
  destruct (for_annotation_returns k e e_frame xs σ) as (σ' & Hrun & Hσ').
  { by eapply for_annotation_returned. }
  rewrite Hxs in Hrun. injection Hrun as <-.
  rewrite Hσ'. case_decide; [rewrite (e_annotated k e e_frame)|];
    by rewrite Hr.
Qed.

(** Either [e] can be evaluated on every route, or there is a first route
    on which it raises. *)
Lemma for_annotation_split routes σ :
  (∀ r, r ∈ routes → returns (e (deref σ r)))
  ∨ ∃ xs r ys x,
      routes = (xs ++ r :: ys)%list
      ∧ (∀ r', r' ∈ xs → returns (e (deref σ r')))
      ∧ e (deref σ r) = Raise x.
Proof.
  induction routes as [|y ys IH].
  - left. by intros r ?%not_elem_of_nil.
  - destruct (e (deref σ y)) eqn:E.
    + destruct IH as [Hall|(xs & r & zs & x & -> & Hxs & Hr)].
      * left. intros r [-> | ?]%elem_of_cons; [by rewrite E|by apply Hall].
      * right. exists (y :: xs), r, zs, x. split_and!; [done| |done].
        intros r' [-> | ?]%elem_of_cons; [by rewrite E|by apply Hxs].
    + right. exists [], y, ys, e0. split_and!; [done| |done].
      by intros r ?%not_elem_of_nil.
Qed.

Lemma for_annotation_idemp_returned routes σ σ' :
  for_ routes (annotation k e) σ = (Return (), σ') →
  for_ routes (annotation k e) σ' = (Return (), σ').
Proof.
  intros Hrun.
  pose proof (for_annotation_returned routes σ σ' Hrun) as Hall.
  destruct (for_annotation_lookup routes σ Hall) as (σ1 & Hrun1 & Hσ1).
  rewrite Hrun in Hrun1. injection Hrun1 as <-.
  assert (Hd : ∀ r, r ∈ routes → deref σ' r = annotated k e (deref σ r)).
  { intros r Hr. unfold deref at 1. by rewrite Hσ1, decide_True. }
  destruct (for_annotation_lookup routes σ') as (σ2 & Hrun2 & Hσ2).
  { intros r Hr. rewrite (Hd r Hr), (e_annotated k e e_frame).
    by apply Hall. }
  rewrite Hrun2. f_equal. apply map_eq. intros r. rewrite Hσ2, Hσ1.
  case_decide; [|done].
  by rewrite (Hd r), (annotated_idemp k e e_frame).
Qed.

(** Running the loop again on the heap it left changes nothing, whether it
    ran to its end or raised. *)
Lemma for_annotation_idemp routes σ :
  for_ routes (annotation k e) (for_ routes (annotation k e) σ).2
  = for_ routes (annotation k e) σ.
Proof.
  destruct (for_annotation_split routes σ)
    as [Hall|(xs & r & ys & x & -> & Hxs & Hr)].
  - destruct (for_annotation_lookup routes σ Hall) as (σ' & Hrun & _).
    rewrite Hrun. cbn. by eapply for_annotation_idemp_returned.
  - destruct (for_annotation_lookup xs σ Hxs) as (σ1 & Hrun & Hσ1).
    rewrite (for_annotation_first_fault xs r ys σ σ1 x Hrun Hr). cbn.
    apply for_annotation_first_fault.
    + by eapply for_annotation_idemp_returned.
    + unfold deref at 1. rewrite Hσ1. case_decide; [|exact Hr].
      cbn. by rewrite (e_annotated k e e_frame).
Qed.

End annotation_heap.

(** Two loops that write different keys, each with an expression that
    reads neither key, can be run in either order. *)
Lemma for_annotation_commute k1 e1 k2 e2 routes σ σ1 σ2 :
  k1 ≠ k2 →
  (∀ d v, e1 (<[k1 := v]> d) = e1 d) → (∀ d v, e1 (<[k2 := v]> d) = e1 d) →
  (∀ d v, e2 (<[k1 := v]> d) = e2 d) → (∀ d v, e2 (<[k2 := v]> d) = e2 d) →
  for_ routes (annotation k1 e1) σ = (Return (), σ1) →
  for_ routes (annotation k2 e2) σ1 = (Return (), σ2) →
  ∃ σ1', for_ routes (annotation k2 e2) σ = (Return (), σ1')
         ∧ for_ routes (annotation k1 e1) σ1' = (Return (), σ2).
Proof.
  intros Hk H11 H12 H21 H22 Hrun1 Hrun2.
  pose proof (for_annotation_returned k1 e1 H11 routes σ σ1 Hrun1) as Hall1.
  pose proof (for_annotation_returned k2 e2 H22 routes σ1 σ2 Hrun2) as Hall2.
  destruct (for_annotation_lookup k1 e1 H11 routes σ Hall1)
    as (σa & Hruna & Hσ1).
  rewrite Hrun1 in Hruna. injection Hruna as <-.
  destruct (for_annotation_lookup k2 e2 H22 routes σ1 Hall2)
    as (σb & Hrunb & Hσ2).
  rewrite Hrun2 in Hrunb. injection Hrunb as <-.
  assert (Hd1 : ∀ r, r ∈ routes → deref σ1 r = annotated k1 e1 (deref σ r)).
  { intros r Hr. unfold deref at 1. by rewrite Hσ1, decide_True. }
  assert (He2 : ∀ d, e2 (annotated k1 e1 d) = e2 d).
  { intros d. unfold annotated. destruct (e1 d); [apply H21|done]. }
  assert (He1 : ∀ d, e1 (annotated k2 e2 d) = e1 d).
  { intros d. unfold annotated. destruct (e2 d); [apply H12|done]. }
  destruct (for_annotation_lookup k2 e2 H22 routes σ) as (σ1' & Hrun1' & Hσ1').
  { intros r Hr. specialize (Hall2 r Hr). by rewrite (Hd1 r Hr), He2 in Hall2. }
  assert (Hd1' : ∀ r, r ∈ routes →
            deref σ1' r = annotated k2 e2 (deref σ r)).
  { intros r Hr. unfold deref at 1. by rewrite Hσ1', decide_True. }
  destruct (for_annotation_lookup k1 e1 H11 routes σ1')
    as (σ2' & Hrun2' & Hσ2').
  { intros r Hr. rewrite (Hd1' r Hr), He1. by apply Hall1. }
  exists σ1'. split; [done|]. rewrite Hrun2'. f_equal.
  apply map_eq. intros r. rewrite Hσ2', Hσ2.
  case_decide as Hr; [|by rewrite Hσ1', Hσ1, !decide_False].
  rewrite (Hd1' r Hr), (Hd1 r Hr). f_equal.
  unfold annotated at 1 3. rewrite He1, He2. unfold annotated.
  destruct (e1 (deref σ r)), (e2 (deref σ r)); try done.
  by apply insert_insert_ne.
Qed.

(** ** The annotating agents, run again, run in another order, or failing *)

Lemma finish_returns routes loop rs σ' :
  finish routes loop = (Return rs, σ') → loop = (Return (), σ') ∧ rs = routes.
Proof. destruct loop as [[[]|x] σ1]; intros; by simplify_eq/=. Qed.

Lemma finish_heap routes loop : (finish routes loop).2 = loop.2.
Proof. by destruct loop as [[[]|x] σ1]. Qed.

Lemma stage_idemp k e stage :
  (∀ d v, e (<[k := v]> d) = e d) →
  (∀ routes σ,
     stage routes σ = finish routes (for_ routes (annotation k e) σ)) →
  ∀ routes σ, stage routes (stage routes σ).2 = stage routes σ.
Proof.
  intros Hframe Hrun routes σ.
  by rewrite !Hrun, finish_heap, (for_annotation_idemp k e Hframe).
Qed.

(** X1.  Each annotating agent is idempotent: run a second time on the
    heap its first run left, it ends as the first run did (it returns the
    list, or raises the same exception) and leaves the heap as it found
    it. *)
Theorem annotating_agents_idempotent (routes : list loc) (σ : heap) :
  CostAgent.process routes (CostAgent.process routes σ).2
  = CostAgent.process routes σ
  ∧ TimeAgent.process routes (TimeAgent.process routes σ).2
    = TimeAgent.process routes σ
  ∧ ResourceAgent.process routes (ResourceAgent.process routes σ).2
    = ResourceAgent.process routes σ.
Proof.
  split_and!.
  - exact (stage_idemp "cost" cost_expr CostAgent.process
             cost_expr_frame CostAgent_process_run routes σ).
  - exact (stage_idemp "score_time" score_time_expr TimeAgent.process
             score_time_expr_frame TimeAgent_process_run routes σ).
  - exact (stage_idemp "feasible" feasible_expr ResourceAgent.process
             feasible_expr_frame ResourceAgent_process_run routes σ).
Qed.

Lemma stage_first_fault k e stage xs r ys σ σ1 x :
  (∀ d v, e (<[k := v]> d) = e d) →
  (∀ routes σ,
     stage routes σ = finish routes (for_ routes (annotation k e) σ)) →
  stage xs σ = (Return xs, σ1) →
  e (deref σ r) = Raise x →
  stage (xs ++ r :: ys)%list σ = (Raise x, σ1).
Proof.
  intros Hframe Hrun Hxs Hr. rewrite Hrun in Hxs.
  apply finish_returns in Hxs as [Hxs _].
  by rewrite Hrun, (for_annotation_first_fault k e Hframe xs r ys σ σ1 x).
Qed.

(** X2.  Time evaluation stops at the first route whose time cannot be
    inverted.  When it returns on the routes [xs] and leaves the heap [σ1],
    then on [xs] followed by a route [r] and any further routes it leaves
    the same heap [σ1] (the routes of [xs] annotated, nothing else
    written) and raises KeyError when [r] has no time, TypeError when the
    time of [r] is a string, and ZeroDivisionError when it is zero. *)
Theorem time_agent_first_fault (xs ys : list loc) (r : loc) (σ σ1 : heap) :
  TimeAgent.process xs σ = (Return xs, σ1) →
  (deref σ r !! "time" = None →
   TimeAgent.process (xs ++ r :: ys) σ = (Raise (KeyError "time"), σ1))
  ∧ (∀ s, deref σ r !! "time" = Some (VStr s) →
       TimeAgent.process (xs ++ r :: ys) σ = (Raise TypeError, σ1))
  ∧ (∀ t, has_num σ r "time" t → (t == 0)%Q →
       TimeAgent.process (xs ++ r :: ys) σ = (Raise ZeroDivisionError, σ1)).
Proof.
  intros Hxs.
  pose proof (λ x, stage_first_fault "score_time" score_time_expr
                     TimeAgent.process xs r ys σ σ1 x score_time_expr_frame
                     TimeAgent_process_run Hxs) as Hfault.
  split_and!.
  - intros Hr. apply Hfault. unfold score_time_expr, subscript.
    by rewrite Hr.
  - intros s Hr. apply Hfault. unfold score_time_expr, subscript.
    by rewrite Hr.
  - intros t Ht Ht0. apply Hfault. rewrite (score_time_expr_run σ r t Ht).
    apply Qeq_alt in Ht0. by rewrite Ht0.
Qed.

(** X3.  Cost estimation stops at the first route that has no distance:
    when it returns on the routes [xs] and leaves the heap [σ1], then on
    [xs] followed by such a route and any further routes it raises
    KeyError and leaves the same heap [σ1]. *)
Theorem cost_agent_missing_distance (xs ys : list loc) (r : loc)
    (σ σ1 : heap) :
  CostAgent.process xs σ = (Return xs, σ1) →
  deref σ r !! "distance" = None →
  CostAgent.process (xs ++ r :: ys) σ = (Raise (KeyError "distance"), σ1).
Proof.
  intros Hxs Hr.
  apply (stage_first_fault "cost" cost_expr CostAgent.process xs r ys σ σ1 _
           cost_expr_frame CostAgent_process_run Hxs).
  unfold cost_expr, subscript. by rewrite Hr.
Qed.

(** X4.  The feasibility check never raises: on every list and every heap
    it returns the list, and the heap it leaves binds every route of the
    list to its dictionary with "feasible" set to [True] and every other
    reference as before. *)
Theorem resource_agent_always_returns (routes : list loc) (σ : heap) :
  ∃ σ',
    ResourceAgent.process routes σ = (Return routes, σ')
    ∧ ∀ r, σ' !! r = if decide (r ∈ routes)
                     then Some (<[ "feasible" := VBool true ]> (deref σ r))
                     else σ !! r.
Proof.
  destruct (for_annotation_lookup "feasible" feasible_expr
              feasible_expr_frame routes σ) as (σ' & Hrun & Hσ'); [done|].
  exists σ'. by rewrite ResourceAgent_process_run, Hrun.
Qed.

(** X5.  Cost estimation and time evaluation can be swapped: when cost
    estimation followed by time evaluation returns, time evaluation
    followed by cost estimation returns as well, with the same list and
    the same heap. *)
Theorem cost_time_commute (routes : list loc) (σ σ' : heap) :
  (routes ← CostAgent.process routes; TimeAgent.process routes) σ
  = (Return routes, σ') →
  (routes ← TimeAgent.process routes; CostAgent.process routes) σ
  = (Return routes, σ').
Proof.
  unfold mbind, M_bind. intros Hrun.
  destruct (CostAgent.process routes σ) as [[rs|x] σ1] eqn:Hcost; [|done].
  rewrite CostAgent_process_run in Hcost.
  apply finish_returns in Hcost as [Hcost ->].
  rewrite TimeAgent_process_run in Hrun.
  apply finish_returns in Hrun as [Htime _].
  destruct (for_annotation_commute "cost" cost_expr "score_time"
              score_time_expr routes σ σ1 σ')
    as (σ1' & Htime' & Hcost'); [done| | | | |done|done|].
  - apply cost_expr_frame.
  - intros. unfold cost_expr. by rewrite subscript_insert_ne.
  - intros. unfold score_time_expr. by rewrite subscript_insert_ne.
  - apply score_time_expr_frame.
  - rewrite TimeAgent_process_run, Htime'. cbn.
    by rewrite CostAgent_process_run, Hcost'.
Qed.

(** ** More on decision fusion *)

Lemma for_fold_step_heap weights routes best σ :
  (for_fold routes (DecisionFusion.step weights) best σ).2 = σ.
Proof.
  revert best. induction routes as [|r rs IH]; intros best; [done|].
  rewrite for_fold_cons.
  pose proof (step_heap weights r best σ) as Hσ.
  destruct (DecisionFusion.step weights r best σ) as [[b|x] σ'];
    cbn in Hσ; subst σ'; [apply IH|done].
Qed.

(** X6.  Decision fusion only reads: whatever the routes and the weights
    hold, and whether it returns or raises, it leaves the heap as it was. *)
Theorem select_best_reads_only (routes : list loc) (weights : dict)
    (σ : heap) :
  (DecisionFusion.select_best routes weights σ).2 = σ.
Proof.
  unfold DecisionFusion.select_best, DecisionFusion.scan, mbind, M_bind.
  pose proof (for_fold_step_heap weights routes (VInt (-1), None) σ) as Hσ.
  destruct (for_fold routes (DecisionFusion.step weights) (VInt (-1), None) σ)
    as [[b|x] σ']; exact Hσ.
Qed.

Lemma step_route weights r bs br bs' br' σ σ' :
  DecisionFusion.step weights r (bs, br) σ = (Return (bs', br'), σ') →
  br' = br ∨ br' = Some r.
Proof.
  unfold DecisionFusion.step. unfold mbind at 1, M_bind at 1.
  destruct (DecisionFusion.score weights r σ) as [[s|x] σ1]; [|done].
  unfold lift, mbind, M_bind.
  destruct (Py.gt s bs) as [[]|]; unfold mret, M_ret; intros;
    simplify_eq/=; auto.
Qed.

Lemma for_fold_step_route weights routes bs br bs' br' σ σ' :
  for_fold routes (DecisionFusion.step weights) (bs, br) σ
  = (Return (bs', br'), σ') →
  br' = br ∨ ∃ r, br' = Some r ∧ r ∈ routes.
Proof.
  revert bs br σ. induction routes as [|r rs IH]; intros bs br σ Hrun.
  - left. cbn in Hrun. unfold mret, M_ret in Hrun. by simplify_eq.
  - rewrite for_fold_cons in Hrun.
    destruct (DecisionFusion.step weights r (bs, br) σ)
      as [[[bs1 br1]|x] σ1] eqn:Hstep; [|done].
    apply step_route in Hstep.
    apply IH in Hrun as [-> | (r' & -> & Hr')].
    + destruct Hstep as [-> | ->]; [by left|].
      right. exists r. split; [done|apply list_elem_of_here].
    + right. exists r'. split; [done|by apply list_elem_of_further].
Qed.

(** X7.  A route that decision fusion returns is a route of the list it
    was given, whatever the routes and the weights hold. *)
Theorem select_best_returns_member (routes : list loc) (weights : dict)
    (σ σ' : heap) (r : loc) :
  DecisionFusion.select_best routes weights σ = (Return (Some r), σ') →
  r ∈ routes.
Proof.
  unfold DecisionFusion.select_best, DecisionFusion.scan.
  unfold mbind at 1, M_bind at 1.
  destruct (for_fold routes (DecisionFusion.step weights) (VInt (-1), None) σ)
    as [[[bs br]|x] σ1] eqn:Hrun; [|done].
  intros Hret. cbn in Hret. unfold mret, M_ret in Hret. simplify_eq.
  apply for_fold_step_route in Hrun as [?|(r' & ? & ?)]; by simplify_eq.
Qed.

(** X8.  When the score of every route can be computed, decision fusion
    returns [None] exactly when no score exceeds the initial -1; otherwise
    it returns a route whose score exceeds -1, is the greatest of the list,
    and is strictly greater than the score of every route before it. *)
Theorem select_best_sentinel (σ : heap) (routes : list loc) (weights : dict)
    (sc : loc → Q) :
  (∀ r, r ∈ routes →
     DecisionFusion.score weights r σ = (Return (VFloat (sc r)), σ)) →
  ∃ best,
    DecisionFusion.select_best routes weights σ = (Return best, σ)
    ∧ (best = None ↔ ∀ r, r ∈ routes → (sc r <= -1)%Q)
    ∧ ∀ r, best = Some r →
        (-1 < sc r)%Q
        ∧ ∃ i, routes !! i = Some r
            ∧ (∀ j r', routes !! j = Some r' → (sc r' <= sc r)%Q)
            ∧ (∀ j r', routes !! j = Some r' → (j < i)%nat →
                 (sc r' < sc r)%Q).
Proof.
  intros Hsc.
  destruct (scan_best_of weights σ sc routes [] (VInt (-1)) None Hsc)
    as (bs & br & Hrun & Hbest).
  { split; [done|]. by intros r ?%not_elem_of_nil. }
  rewrite app_nil_l in Hbest. exists br.
  unfold DecisionFusion.select_best, DecisionFusion.scan.
  unfold mbind at 1, M_bind at 1. rewrite Hrun. split; [done|].
  destruct br as [r|]; cbn [best_of] in Hbest.
  - destruct Hbest as (_ & Hr & i & Hi & Hmax & Hfirst). split.
    + split; [done|]. intros Hall.
      specialize (Hall r (list_elem_of_lookup_2 _ _ _ Hi)). lra.
    + intros r' [= <-]. eauto.
  - destruct Hbest as (_ & Hall). split; [done|]. by intros r [=].
Qed.






(** X10.  Decision fusion looks the time weight up before it reads the
    first route: on a non-empty list, weights without "time_weight" make it
    raise KeyError, whatever the routes hold. *)
Theorem select_best_missing_time_weight (routes : list loc) (weights : dict)
    (σ : heap) :
  routes ≠ [] →
  weights !! "time_weight" = None →
  DecisionFusion.select_best routes weights σ
  = (Raise (KeyError "time_weight"), σ).
Proof.
  intros Hne Hw. destruct routes as [|r rs]; [done|].
  unfold DecisionFusion.select_best, DecisionFusion.scan.
  unfold mbind at 1, M_bind at 1. rewrite for_fold_cons.
  unfold DecisionFusion.step, DecisionFusion.score, lift, mbind, M_bind,
    subscript.
  by rewrite Hw.
Qed.

(** X11.  Decision fusion reads neither the time score nor the feasibility
    flag: on the heap that time evaluation or the feasibility check leaves,
    run on any list and whether it returned or raised, decision fusion
    ends as on the heap before (same route or same exception). *)
Theorem fusion_after_annotation (routes annotated_routes : list loc)
    (weights : dict) (σ : heap) :
  (DecisionFusion.select_best routes weights
     (TimeAgent.process annotated_routes σ).2).1
  = (DecisionFusion.select_best routes weights σ).1
  ∧ (DecisionFusion.select_best routes weights
       (ResourceAgent.process annotated_routes σ).2).1
    = (DecisionFusion.select_best routes weights σ).1.
Proof.
  assert (Hsame : ∀ σ1 σ2,
            (∀ r, deref σ1 r !! "time" = deref σ2 r !! "time"
                  ∧ deref σ1 r !! "cost" = deref σ2 r !! "cost") →
            (DecisionFusion.select_best routes weights σ1).1
            = (DecisionFusion.select_best routes weights σ2).1).
  { intros σ1 σ2 Hagree.
    unfold DecisionFusion.select_best, DecisionFusion.scan, mbind, M_bind.
    pose proof (for_fold_step_agree weights routes σ1 σ2
                  (λ r _, Hagree r) (VInt (-1), None)) as Hscan.
    destruct (for_fold routes (DecisionFusion.step weights)
                (VInt (-1), None) σ1) as [[b1|x1] σ1'],
      (for_fold routes (DecisionFusion.step weights)
         (VInt (-1), None) σ2) as [[b2|x2] σ2']; by simplify_eq/=. }
  split; apply Hsame; intros r.
  - destruct (annotation_only_writes "score_time" score_time_expr
                TimeAgent.process score_time_expr_frame
                TimeAgent_process_run annotated_routes σ) as (Hfr & _).
    split; by apply Hfr.
  - destruct (annotation_only_writes "feasible" feasible_expr
                ResourceAgent.process feasible_expr_frame
                ResourceAgent_process_run annotated_routes σ) as (Hfr & _).
    split; by apply Hfr.
Qed.

(** ** Route generation and the whole pipeline *)

Lemma route_agent_run {A} (data : A) (σ : heap) :
  ∃ a b c σ',
    RouteAgent.process data σ = (Return [a; b; c], σ')
    ∧ NoDup [a; b; c]
    ∧ (∀ r, r ∈ [a; b; c] → σ !! r = None)
    ∧ σ' !! a = Some route_A ∧ σ' !! b = Some route_B
    ∧ σ' !! c = Some route_C
    ∧ ∀ r, r ∉ [a; b; c] → σ' !! r = σ !! r.
Proof.
  set (a := fresh (dom σ)).
  set (σa := <[a := route_A]> σ).
  set (b := fresh (dom σa)).
  set (σb := <[b := route_B]> σa).
  set (c := fresh (dom σb)).
  exists a, b, c, (<[c := route_C]> σb).
  assert (Ha : a ∉ dom σ) by apply is_fresh.
  assert (Hb : b ∉ dom σa) by apply is_fresh.
  assert (Hc : c ∉ dom σb) by apply is_fresh.
  unfold σb in Hc. rewrite dom_insert_L in Hc.
  unfold σa in Hb, Hc. rewrite dom_insert_L in Hb, Hc.
  assert (b ≠ a) by set_solver. assert (c ≠ a) by set_solver.
  assert (c ≠ b) by set_solver.
  split_and!.
  - reflexivity.
  - apply NoDup_cons. split.
    { intros [?|[?|[]%not_elem_of_nil]%elem_of_cons]%elem_of_cons;
        congruence. }
    apply NoDup_cons. split.
    { intros [?|[]%not_elem_of_nil]%elem_of_cons. congruence. }
    apply NoDup_singleton.
  - intros r Hr. apply not_elem_of_dom.
    assert (Hcases : r = a ∨ r = b ∨ r = c).
    { repeat (apply elem_of_cons in Hr as [Hr|Hr]; [tauto|]).
      by apply not_elem_of_nil in Hr. }
    destruct Hcases as [-> | [-> | ->]]; [done| |].
    + intros ?. apply Hb. apply elem_of_union. by right.
    + intros ?. apply Hc. apply elem_of_union. right.
      apply elem_of_union. by right.
  - unfold σb, σa. rewrite !lookup_insert_ne by done.
    apply lookup_insert_eq.
  - unfold σb. rewrite lookup_insert_ne by done. apply lookup_insert_eq.
  - apply lookup_insert_eq.
  - intros r Hr. unfold σb, σa.
    assert (r ≠ a ∧ r ≠ b ∧ r ≠ c) as (? & ? & ?).
    { split_and!; intros ->; apply Hr; set_solver. }
    by rewrite !lookup_insert_ne.
Qed.

(** X12.  Route generation builds new dictionaries at every call: whatever
    the heap and the argument, it returns three references that differ from
    one another and were bound to nothing before, bound to the dictionaries
    of Route A, Route B and Route C, and it leaves every other reference as
    it was. *)
Theorem route_agent_fresh_routes {A : Type} (data : A) (σ : heap) :
  ∃ a b c σ',
    RouteAgent.process data σ = (Return [a; b; c], σ')
    ∧ NoDup [a; b; c]
    ∧ (∀ r, r ∈ [a; b; c] → σ !! r = None)
    ∧ σ' !! a = Some route_A ∧ σ' !! b = Some route_B
    ∧ σ' !! c = Some route_C
    ∧ ∀ r, r ∉ [a; b; c] → σ' !! r = σ !! r.
Proof. apply route_agent_run. Qed.

Lemma bind_run {A B} (m : M A) (f : A → M B) (σ : heap) :
  (m ≫= f) σ
  = match m σ with
    | (Return a, σ') => f a σ'
    | (Raise x, σ') => (Raise x, σ')
    end.
Proof. reflexivity. Qed.

Lemma preference_run (user_input : dict) (priority : value) (σ : heap) :
  user_input !! "priority" = Some priority →
  PreferenceAgent.process user_input σ
  = (Return (if Py.eq_str priority "fast"
             then sample_weights else cheap_weights), σ).
Proof.
  intros Hp.
  unfold PreferenceAgent.process, lift, mbind, M_bind, mret, M_ret, subscript.
  rewrite Hp. by destruct (Py.eq_str priority "fast").
Qed.

Lemma stage_returns k e stage routes σ :
  (∀ d v, e (<[k := v]> d) = e d) →
  (∀ routes σ,
     stage routes σ = finish routes (for_ routes (annotation k e) σ)) →
  (∀ r, r ∈ routes → returns (e (deref σ r))) →
  ∃ σ', stage routes σ = (Return routes, σ')
        ∧ ∀ r, σ' !! r = if decide (r ∈ routes)
                         then Some (annotated k e (deref σ r))
                         else σ !! r.
Proof.
  intros Hframe Hrun Hok.
  destruct (for_annotation_lookup k e Hframe routes σ Hok)
    as (σ' & Hloop & Hσ').
  exists σ'. by rewrite Hrun, Hloop.
Qed.

(** The three annotations of one dictionary. *)
Lemma score_time_expr_cost d :
  score_time_expr (annotated "cost" cost_expr d) = score_time_expr d.
Proof.
  unfold annotated. destruct (cost_expr d); [|done].
  unfold score_time_expr. by rewrite subscript_insert_ne.
Qed.

(** The three annotating agents in a row, on routes whose distance can be
    multiplied and whose time can be inverted. *)
Lemma annotate_all routes σ :
  (∀ r, r ∈ routes →
     returns (cost_expr (deref σ r))
     ∧ returns (score_time_expr (deref σ r))) →
  ∃ σ1 σ2 σ3,
    CostAgent.process routes σ = (Return routes, σ1)
    ∧ TimeAgent.process routes σ1 = (Return routes, σ2)
    ∧ ResourceAgent.process routes σ2 = (Return routes, σ3)
    ∧ ∀ r, σ3 !! r
           = if decide (r ∈ routes)
             then Some (annotated "feasible" feasible_expr
                          (annotated "score_time" score_time_expr
                             (annotated "cost" cost_expr (deref σ r))))
             else σ !! r.
Proof.
  intros Hok.
  destruct (stage_returns "cost" cost_expr CostAgent.process routes σ
              cost_expr_frame CostAgent_process_run) as (σ1 & Hcost & Hσ1).
  { intros r Hr. by apply Hok. }
  assert (Hd1 : ∀ r, r ∈ routes →
            deref σ1 r = annotated "cost" cost_expr (deref σ r)).
  { intros r Hr. unfold deref at 1. by rewrite Hσ1, decide_True. }
  destruct (stage_returns "score_time" score_time_expr TimeAgent.process
              routes σ1 score_time_expr_frame TimeAgent_process_run)
    as (σ2 & Htime & Hσ2).
  { intros r Hr. rewrite (Hd1 r Hr), score_time_expr_cost. by apply Hok. }
  assert (Hd2 : ∀ r, r ∈ routes →
            deref σ2 r = annotated "score_time" score_time_expr
                           (annotated "cost" cost_expr (deref σ r))).
  { intros r Hr. unfold deref at 1. by rewrite Hσ2, decide_True, Hd1. }
  destruct (stage_returns "feasible" feasible_expr ResourceAgent.process
              routes σ2 feasible_expr_frame ResourceAgent_process_run)
    as (σ3 & Hres & Hσ3); [done|].
  exists σ1, σ2, σ3. split_and!; [done..|].
  intros r. rewrite Hσ3. case_decide as Hr; [by rewrite Hd2|].
  by rewrite Hσ2, Hσ1, !decide_False.
Qed.

Lemma has_num_deref σ r k v q d :
  deref σ r = d → d !! k = Some v → Py.as_num v = Some q →
  has_num σ r k q.
Proof. intros <- ? ?. by exists v. Qed.

(** Fusion on three references that hold the annotated routes A, B and C,
    under weights for which Route B has the greatest score. *)
Lemma select_best_route_B weights wt wc σ a b c d_a d_b d_c :
  NoDup [a; b; c] →
  weight weights "time_weight" wt → weight weights "cost_weight" wc →
  deref σ a = d_a → deref σ b = d_b → deref σ c = d_c →
  d_a !! "time" = Some (VInt 20) → d_a !! "cost" = Some (VInt 50) →
  d_b !! "time" = Some (VInt 15) → d_b !! "cost" = Some (VInt 70) →
  d_c !! "time" = Some (VInt 25) → d_c !! "cost" = Some (VInt 40) →
  (-1 < fusion_score wt wc (inject_Z 15) (inject_Z 70))%Q →
  (fusion_score wt wc (inject_Z 20) (inject_Z 50)
   < fusion_score wt wc (inject_Z 15) (inject_Z 70))%Q →
  (fusion_score wt wc (inject_Z 25) (inject_Z 40)
   < fusion_score wt wc (inject_Z 15) (inject_Z 70))%Q →
  DecisionFusion.select_best [a; b; c] weights σ = (Return (Some b), σ).
Proof.
  intros Hnd Hwt Hwc Ha Hb Hc Hat Hac Hbt Hbc Hct Hcc Hpos HAB HCB.
  apply NoDup_cons in Hnd as [Hab Hnd]. apply NoDup_cons in Hnd as [Hbc' _].
  assert (a ≠ b ∧ a ≠ c ∧ b ≠ c) as (Hne1 & Hne2 & Hne3).
  { split_and!; intros ->.
    - apply Hab, list_elem_of_here.
    - apply Hab, list_elem_of_further, list_elem_of_here.
    - apply Hbc', list_elem_of_here. }
  set (sc := λ r : loc,
         if decide (r = a)
         then fusion_score wt wc (inject_Z 20) (inject_Z 50)
         else if decide (r = b)
              then fusion_score wt wc (inject_Z 15) (inject_Z 70)
              else fusion_score wt wc (inject_Z 25) (inject_Z 40)).
  assert (Hsc : ∀ r, r ∈ [a; b; c] →
            DecisionFusion.score weights r σ = (Return (VFloat (sc r)), σ)).
  { intros r Hr.
    assert (Hcases : r = a ∨ r = b ∨ r = c).
    { repeat (apply elem_of_cons in Hr as [Hr|Hr]; [tauto|]).
      by apply not_elem_of_nil in Hr. }
    unfold sc. destruct Hcases as [-> | [-> | ->]].
    - rewrite decide_True by done.
      apply score_run; [done|done| | |done|done];
        by eapply has_num_deref.
    - rewrite decide_False, decide_True by done.
      apply score_run; [done|done| | |done|done];
        by eapply has_num_deref.
    - rewrite !decide_False by done.
      apply score_run; [done|done| | |done|done];
        by eapply has_num_deref. }
  destruct (scan_best_of weights σ sc [a; b; c] [] (VInt (-1)) None Hsc)
    as (bs & br & Hrun & Hbest).
  { split; [done|]. by intros r ?%not_elem_of_nil. }
  rewrite app_nil_l in Hbest.
  unfold DecisionFusion.select_best, DecisionFusion.scan.
  unfold mbind at 1, M_bind at 1. rewrite Hrun. cbn.
  assert (Hsb : sc b = fusion_score wt wc (inject_Z 15) (inject_Z 70)).
  { unfold sc. by rewrite decide_False, decide_True. }
  assert (Hsa : sc a = fusion_score wt wc (inject_Z 20) (inject_Z 50)).
  { unfold sc. by rewrite decide_True. }
  assert (Hsc' : sc c = fusion_score wt wc (inject_Z 25) (inject_Z 40)).
  { unfold sc. by rewrite !decide_False. }
  assert (Hbin : [a; b; c] !! 1%nat = Some b) by done.
  destruct br as [r|]; cbn [best_of] in Hbest.
  - destruct Hbest as (_ & _ & i & Hi & Hmax & _).
    specialize (Hmax 1%nat b Hbin). rewrite Hsb in Hmax.
    apply list_elem_of_lookup_2 in Hi.
    assert (Hcases : r = a ∨ r = b ∨ r = c).
    { repeat (apply elem_of_cons in Hi as [Hi|Hi]; [tauto|]).
      by apply not_elem_of_nil in Hi. }
    destruct Hcases as [-> | [-> | ->]]; [|done|].
    + rewrite Hsa in Hmax. lra.
    + rewrite Hsc' in Hmax. lra.
  - destruct Hbest as (_ & Hall).
    specialize (Hall b (list_elem_of_lookup_2 _ _ _ Hbin)).
    rewrite Hsb in Hall. lra.
Qed.

Lemma run_planit_pipeline : run_planit = pipeline sample_request.
Proof. reflexivity. Qed.

Lemma pipeline_run (user_input : dict) (priority : value) (σ : heap) :
  user_input !! "priority" = Some priority →
  ∃ σ',
    pipeline user_input σ = (Return (Some route_B_annotated), σ')
    ∧ ∀ r d, σ !! r = Some d → σ' !! r = Some d.
Proof.
  intros Hp. unfold pipeline.
  rewrite bind_run, (preference_run _ _ _ Hp). cbv beta iota.
  destruct (route_agent_run user_input σ)
    as (a & b & c & σ0 & Hroutes & Hnd & Hnew & Ha & Hb & Hc & Hold).
  rewrite bind_run, Hroutes. cbv beta iota.
  assert (Hd0 : ∀ r, r ∈ [a; b; c] →
            deref σ0 r = route_A ∨ deref σ0 r = route_B
            ∨ deref σ0 r = route_C).
  { intros r Hr. unfold deref.
    repeat (apply elem_of_cons in Hr as [-> | Hr];
            [rewrite ?Ha, ?Hb, ?Hc; cbn; tauto|]).
    by apply not_elem_of_nil in Hr. }
  destruct (annotate_all [a; b; c] σ0)
    as (σ1 & σ2 & σ3 & Hcost & Htime & Hres & Hσ3).
  { intros r Hr.
    destruct (Hd0 r Hr) as [-> | [-> | ->]]; split; vm_compute; done. }
  rewrite bind_run, Hcost. cbv beta iota.
  rewrite bind_run, Htime. cbv beta iota.
  rewrite bind_run, Hres. cbv beta iota.
  assert (Hd3 : ∀ r d, r ∈ [a; b; c] → σ0 !! r = Some d →
            deref σ3 r
            = annotated "feasible" feasible_expr
                (annotated "score_time" score_time_expr
                   (annotated "cost" cost_expr d))).
  { intros r d Hr Hd. unfold deref at 1. rewrite Hσ3, decide_True by done.
    unfold deref. by rewrite Hd. }
  assert (Hain : a ∈ [a; b; c]) by apply list_elem_of_here.
  assert (Hbin : b ∈ [a; b; c])
    by apply list_elem_of_further, list_elem_of_here.
  assert (Hcin : c ∈ [a; b; c])
    by apply list_elem_of_further, list_elem_of_further, list_elem_of_here.
  assert (Hsel : ∀ weights,
            weights = sample_weights ∨ weights = cheap_weights →
            DecisionFusion.select_best [a; b; c] weights σ3
            = (Return (Some b), σ3)).
  { intros weights Hw.
    assert (∃ wt wc,
              weight weights "time_weight" wt
              ∧ weight weights "cost_weight" wc
              ∧ (-1 < fusion_score wt wc (inject_Z 15) (inject_Z 70))%Q
              ∧ (fusion_score wt wc (inject_Z 20) (inject_Z 50)
                 < fusion_score wt wc (inject_Z 15) (inject_Z 70))%Q
              ∧ (fusion_score wt wc (inject_Z 25) (inject_Z 40)
                 < fusion_score wt wc (inject_Z 15) (inject_Z 70))%Q)
      as (wt & wc & Hwt & Hwc & H1 & H2 & H3).
    { destruct Hw as [-> | ->].
      - exists 0.6%Q, 0.4%Q. split_and!; try (vm_compute; reflexivity).
        + exists (VFloat 0.6). split; vm_compute; reflexivity.
        + exists (VFloat 0.4). split; vm_compute; reflexivity.
      - exists 0.4%Q, 0.6%Q. split_and!; try (vm_compute; reflexivity).
        + exists (VFloat 0.4). split; vm_compute; reflexivity.
        + exists (VFloat 0.6). split; vm_compute; reflexivity. }
    eapply (select_best_route_B weights wt wc σ3 a b c);
      [done|done|done
      |exact (Hd3 a route_A Hain Ha)
      |exact (Hd3 b route_B Hbin Hb)
      |exact (Hd3 c route_C Hcin Hc)
      |vm_compute; reflexivity..|done|done|done]. }
  rewrite bind_run, Hsel by (destruct (Py.eq_str priority "fast"); auto).
  cbv beta iota. exists σ3. split.
  - unfold show. cbn [fmap option_fmap option_map].
    rewrite (Hd3 b route_B Hbin Hb). do 3 f_equal.
  - intros r d Hr. rewrite Hσ3.
    assert (Hnin : r ∉ [a; b; c]).
    { intros Hin. apply Hnew in Hin. congruence. }
    rewrite decide_False by done. by rewrite Hold.
Qed.

(** X13.  From any heap, [run_planit] prints Route B with its cost, its
    time score and its feasibility flag, and leaves every dictionary that
    existed before as it was. *)
Theorem run_planit_from_any_heap (σ : heap) :
  ∃ σ',
    run_planit σ = (Return (Some route_B_annotated), σ')
    ∧ ∀ r d, σ !! r = Some d → σ' !! r = Some d.
Proof.
  rewrite run_planit_pipeline.
  by apply (pipeline_run sample_request (VStr "fast")).
Qed.

(** X14.  The routes of the simulation make the choice independent of the
    priority: for every request that has a priority, "fast" or not, the
    steps of [run_planit] select and print Route B, from any heap. *)
Theorem pipeline_selects_route_B_for_every_priority
    (user_input : dict) (priority : value) (σ : heap) :
  user_input !! "priority" = Some priority →
  ∃ σ',
    pipeline user_input σ = (Return (Some route_B_annotated), σ')
    ∧ ∀ r d, σ !! r = Some d → σ' !! r = Some d.
Proof. apply pipeline_run. Qed.

(** ** The annotating agents followed by decision fusion, on any routes *)





(** ** The further properties on the sample data *)

Lemma time_agent_first_fault_witness :
  TimeAgent.process ([1%positive] ++ 2%positive :: [1%positive])%list
    heap_zero_time
  = (Raise ZeroDivisionError,
     (TimeAgent.process [1%positive] heap_zero_time).2).
Proof.
  refine (proj2 (proj2 (time_agent_first_fault [1%positive] [1%positive]
                          2%positive heap_zero_time _ _))
            (inject_Z 0) _ _).
  - vm_compute. reflexivity.
  - exists (VInt 0). split; vm_compute; reflexivity.
  - reflexivity.
Defined.

Lemma cost_agent_missing_distance_witness :
  CostAgent.process ([1%positive] ++ 2%positive :: [])%list heap_no_distance
  = (Raise (KeyError "distance"),
     (CostAgent.process [1%positive] heap_no_distance).2).
Proof.
  apply (cost_agent_missing_distance [1%positive] [] 2%positive
           heap_no_distance).
  - vm_compute. reflexivity.
  - vm_compute. reflexivity.
Defined.

Lemma cost_time_commute_witness :
  (routes ← TimeAgent.process [1; 2; 3]%positive; CostAgent.process routes)
    heap_after_routes
  = (Return [1; 2; 3]%positive, heap_after_time).
Proof.
  apply (cost_time_commute [1; 2; 3]%positive heap_after_routes
           heap_after_time).
  vm_compute. reflexivity.
Defined.

Lemma select_best_returns_member_witness :
  2%positive ∈ [1; 2; 3]%positive.
Proof.
  apply (select_best_returns_member [1; 2; 3]%positive sample_weights
           sample_heap sample_heap 2%positive).
  vm_compute. reflexivity.
Defined.

Lemma select_best_sentinel_witness :
  ∃ best,
    DecisionFusion.select_best [1; 2]%positive sample_weights
      heap_negative_routes
    = (Return best, heap_negative_routes)
    ∧ (best = None ↔
       ∀ r, r ∈ [1; 2]%positive → (negative_score r <= -1)%Q)
    ∧ ∀ r, best = Some r →
        (-1 < negative_score r)%Q
        ∧ ∃ i, [1; 2]%positive !! i = Some r
            ∧ (∀ j r', [1; 2]%positive !! j = Some r' →
                 (negative_score r' <= negative_score r)%Q)
            ∧ (∀ j r', [1; 2]%positive !! j = Some r' → (j < i)%nat →
                 (negative_score r' < negative_score r)%Q).
Proof.
  apply (select_best_sentinel heap_negative_routes [1; 2]%positive
           sample_weights negative_score).
  intros r Hr.
  assert (Hcases : r = 1%positive ∨ r = 2%positive).
  { repeat (apply elem_of_cons in Hr as [Hr|Hr]; [tauto|]).
    by apply not_elem_of_nil in Hr. }
  destruct Hcases as [-> | ->]; vm_compute; reflexivity.
Defined.


Lemma select_best_missing_time_weight_witness :
  DecisionFusion.select_best [1%positive] ∅ sample_heap
  = (Raise (KeyError "time_weight"), sample_heap).
Proof.
  apply (select_best_missing_time_weight [1%positive] ∅ sample_heap).
  - discriminate.
  - vm_compute. reflexivity.
Defined.

Lemma pipeline_selects_route_B_for_every_priority_witness :
  ∃ σ',
    pipeline {[ "priority" := VStr "cheap" ]} ∅
    = (Return (Some route_B_annotated), σ')
    ∧ ∀ r d, (∅ : heap) !! r = Some d → σ' !! r = Some d.
Proof.
  apply (pipeline_selects_route_B_for_every_priority
           {[ "priority" := VStr "cheap" ]} (VStr "cheap") ∅).
  vm_compute. reflexivity.
Defined.


(** ** A route beaten on time and on cost is never selected *)






(** ** Preference interpretation without a priority *)

(** X17.  Preference interpretation never touches the heap, and it raises
    exactly when the request has no "priority" entry; the exception is then
    KeyError. *)
Theorem preference_agent_missing_priority (user_input : dict) (σ : heap) :
  (PreferenceAgent.process user_input σ).2 = σ
  ∧ (user_input !! "priority" = None ↔
     (PreferenceAgent.process user_input σ).1 = Raise (KeyError "priority"))
  ∧ ∀ x, (PreferenceAgent.process user_input σ).1 = Raise x →
         user_input !! "priority" = None.
Proof.
  unfold PreferenceAgent.process, lift, mbind, M_bind, mret, M_ret, subscript.
  destruct (user_input !! "priority") as [p|]; cbn; split_and!;
    try done; split; done.
Qed.
